(** * heymans.model._base_model : the chat-model adapter [BaseModel]

    A shallow embedding of [src/heymans/model/_base_model.py].

    - Python values that reach the adapter are the inductive [value].
    - Python integers are [Z]; [//] is [Z.div] (both round towards minus
      infinity for a positive divisor).
    - A Python [str] is a [string]; every [ascii] stands for one character,
      so [len] is [String.length].
    - Exceptions are explicit: pure methods return a [result], methods that
      call the provider or update the counters live in the state and error
      monad [M].
    - [invoke] and [async_invoke] are abstract in the source (the base class
      raises [NotImplementedError], subclasses override them): they are the
      methods of the class [Provider], acting on a state [world] of the
      provider that is disjoint from the instance's attributes.
    - Calls to [logger] and [time.time] do not influence any result and are
      left out. *)

From Stdlib Require Import ZArith List String Ascii Bool Lia.
Import ListNotations.
Local Open Scope string_scope.
Local Open Scope Z_scope.
Set Warnings "-register-all".

(** ** Python values *)

(** The message classes of [langchain.schema]; they are siblings below
    [BaseMessage].  The first four are the ones [convert_message] knows. *)
Inductive msg_class : Set :=
| SystemMessage
| AIMessage
| HumanMessage
| FunctionMessage
| ChatMessage
| ToolMessage.

Definition msg_class_eqb (a b : msg_class) : bool :=
  match a, b with
  | SystemMessage, SystemMessage
  | AIMessage, AIMessage
  | HumanMessage, HumanMessage
  | FunctionMessage, FunctionMessage
  | ChatMessage, ChatMessage
  | ToolMessage, ToolMessage => true
  | _, _ => false
  end.

(** A [VDict] is an association list with pairwise distinct string keys, in
    insertion order.  A [VMsg] is an instance of a message class together
    with its [content] attribute, the only attribute the methods read; the
    other attributes of a message ([name], [additional_kwargs]...) are not
    represented, so that a [VMsg] stands for all messages of that class with
    that content. *)
Inductive value : Type :=
| VNone
| VBool (b : bool)
| VInt (z : Z)
| VStr (s : string)
| VList (l : list value)
| VTuple (l : list value)
| VDict (d : list (string * value))
| VMsg (c : msg_class) (content : value).

Inductive exn : Type :=
| ValueError (unknown : value)
| TypeError
| KeyError (key : string)
| AttributeError (attr : string)
| NotImplementedError
| ProviderError (detail : string).

Inductive result (A : Type) : Type :=
| Ok (a : A)
| Raise (e : exn).
Arguments Ok {A} a.
Arguments Raise {A} e.

Definition bindR {A B : Type} (r : result A) (k : A -> result B) : result B :=
  match r with
  | Ok a => k a
  | Raise e => Raise e
  end.

Notation "'let?' x ':=' r 'in' k" := (bindR r (fun x => k))
  (at level 10, x name, r at level 100, k at level 200).

(** [[f(x) for x in l]] for an [f] that may raise: evaluation is from left to
    right and stops at the first exception. *)
Fixpoint mapR {A B : Type} (f : A -> result B) (l : list A) : result (list B) :=
  match l with
  | [] => Ok []
  | x :: t => let? y := f x in let? ys := mapR f t in Ok (y :: ys)
  end.

Definition isinstance_str (v : value) : bool :=
  match v with
  | VStr _ => true
  | _ => false
  end.

Definition isinstance (v : value) (c : msg_class) : bool :=
  match v with
  | VMsg c' _ => msg_class_eqb c' c
  | _ => false
  end.

(** [hasattr(v, 'content')] *)
Definition hasattr_content (v : value) : bool :=
  match v with
  | VMsg _ _ => true
  | _ => false
  end.

(** [v.content] *)
Definition getattr_content (v : value) : result value :=
  match v with
  | VMsg _ content => Ok content
  | _ => Raise (AttributeError "content")
  end.

Fixpoint dict_get (d : list (string * value)) (key : string) : option value :=
  match d with
  | [] => None
  | (k, v) :: t => if String.eqb k key then Some v else dict_get t key
  end.

(** [v[key]] for a string [key]: only a dict can be indexed by a string. *)
Definition getitem (v : value) (key : string) : result value :=
  match v with
  | VDict d =>
      match dict_get d key with
      | Some x => Ok x
      | None => Raise (KeyError key)
      end
  | _ => Raise TypeError
  end.

(** [len(v)] *)
Definition len (v : value) : result Z :=
  match v with
  | VStr s => Ok (Z.of_nat (String.length s))
  | VList l | VTuple l => Ok (Z.of_nat (List.length l))
  | VDict d => Ok (Z.of_nat (List.length d))
  | _ => Raise TypeError
  end.

(** [for m in v]: the elements a [for] loop visits.  Iterating a dict visits
    its keys; a message object is a pydantic model and yields its fields as
    (name, value) tuples, of which [content] is the first. *)
Definition iterate (v : value) : result (list value) :=
  match v with
  | VList l | VTuple l => Ok l
  | VStr s => Ok (map (fun a => VStr (String a EmptyString)) (list_ascii_of_string s))
  | VDict d => Ok (map (fun kv => VStr (fst kv)) d)
  | VMsg _ content => Ok [VTuple [VStr "content"; content]]
  | _ => Raise TypeError
  end.

(** [bool(v)] *)
Definition truthy (v : value) : bool :=
  match v with
  | VNone => false
  | VBool b => b
  | VInt z => negb (z =? 0)
  | VStr s => negb (String.eqb s "")
  | VList l | VTuple l => negb (Nat.eqb (List.length l) 0)
  | VDict d => negb (Nat.eqb (List.length d) 0)
  | VMsg _ _ => true
  end.

(** [sum(l)] of a list of integers *)
Definition sum (l : list Z) : Z := fold_left Z.add l 0.

(** [dict(role=role, content=content)] *)
Definition dict_role_content (role : string) (content : value) : value :=
  VDict [("role", VStr role); ("content", content)].

(** ** The pure methods of [BaseModel] *)

Module BaseModel.

Definition characters_per_token : Z := 4.

(** [invalid_tool] *)
Definition invalid_tool : value :=
  VTuple [VStr "Invalid tool"; VNone; VBool false].

(** [get_response] *)
Definition get_response (response : value) : result value :=
  getattr_content response.

(** [messages_length] *)
Definition messages_length (messages : value) : result Z :=
  if isinstance_str messages then len messages
  else
    let? ms := iterate messages in
    let? lens :=
      mapR (fun m =>
              let? c := (if hasattr_content m then getattr_content m
                         else getitem m "content") in
              len c) ms in
    Ok (sum lens).

(** [convert_message] *)
Definition convert_message (message : value) : result value :=
  if isinstance_str message then Ok (dict_role_content "user" message)
  else
    let? role :=
      (if isinstance message SystemMessage then Ok "system"
       else if isinstance message AIMessage then Ok "assistant"
       else if isinstance message HumanMessage then Ok "user"
       else if isinstance message FunctionMessage then Ok "tool"
       else Raise (ValueError message)) in
    let? content := getattr_content message in
    Ok (dict_role_content role content).

End BaseModel.

(** The four variants [convert_message] gives a role to. *)
Definition supported_variant (v : value) : bool :=
  isinstance v SystemMessage || isinstance v AIMessage
  || isinstance v HumanMessage || isinstance v FunctionMessage.

(** [m] is a message object or a record whose content is the text [s]. *)
Inductive text_content : value -> string -> Prop :=
| text_of_message (c : msg_class) (s : string) :
    text_content (VMsg c (VStr s)) s
| text_of_record (d : list (string * value)) (s : string) :
    dict_get d "content" = Some (VStr s) ->
    text_content (VDict d) s.

(** The number of characters of a text, as a Python integer. *)
Definition characters (s : string) : Z := Z.of_nat (String.length s).

(** ** The provider and the state of the computation *)

(** What the provider has seen so far (sent requests, remaining quota, random
    seed...).  A call returns a response object or raises, and moves the
    provider to a new state.  [async_invoke p] stands for creating the
    coroutine for [p] and awaiting it. *)
Class Provider (world : Type) : Type := {
  invoke : value -> world -> result value * world;
  async_invoke : value -> world -> result value * world
}.

(** The base class itself: both methods raise. *)
Definition base_provider (world : Type) : Provider world := {|
  invoke := fun _ w => (Raise NotImplementedError, w);
  async_invoke := fun _ w => (Raise NotImplementedError, w)
|}.

(** A tool of the assistant; only its [tool_spec] attribute is read here. *)
Record tool : Type := { tool_spec : value }.

(** The attributes of an instance. *)
Record instance : Type := {
  _heymans : value;
  _tools : option (list tool);
  _tool_choice : value;
  total_tokens_consumed : Z;
  prompt_tokens_consumed : Z;
  completion_tokens_consumed : Z
}.

(** The state of asyncio in the calling thread: [asyncio.get_event_loop()]
    raises [RuntimeError] when there is no current loop, and otherwise returns
    a loop that is running or not. *)
Inductive event_loop : Set :=
| NoLoop
| Loop (is_running : bool).

Section Model.

Context {world : Type} {provider : Provider world}.

Record state : Type := { self : instance; env : world }.

(** State and exceptions: an exception keeps the state reached so far, as
    attribute updates in Python are in place. *)
Definition M (A : Type) : Type := state -> result A * state.

Definition ret {A : Type} (a : A) : M A := fun s => (Ok a, s).

Definition bind {A B : Type} (m : M A) (k : A -> M B) : M B :=
  fun s =>
    match m s with
    | (Ok a, s') => k a s'
    | (Raise e, s') => (Raise e, s')
    end.

Definition lift {A : Type} (r : result A) : M A := fun s => (r, s).

Definition call (f : value -> world -> result value * world) (messages : value)
  : M value :=
  fun s =>
    let (r, w) := f messages (env s) in
    (r, {| self := self s; env := w |}).

Definition modify_self (f : instance -> instance) : M unit :=
  fun s => (Ok tt, {| self := f (self s); env := env s |}).

Notation "x <- m ;; k" := (bind m (fun x => k))
  (at level 61, m at next level, right associativity).
Notation "m ;;; k" := (bind m (fun _ => k))
  (at level 61, right associativity).

Fixpoint mapM {A B : Type} (f : A -> M B) (l : list A) : M (list B) :=
  match l with
  | [] => ret []
  | x :: t => y <- f x ;; ys <- mapM f t ;; ret (y :: ys)
  end.

(** ** The methods that use the instance *)

(** [__init__] *)
Definition __init__ (heymans : value) (tools : option (list tool))
  (tool_choice : value) : instance := {|
  _heymans := heymans;
  _tools := tools;
  _tool_choice := tool_choice;
  total_tokens_consumed := 0;
  prompt_tokens_consumed := 0;
  completion_tokens_consumed := 0
|}.

(** [tools] *)
Definition tools (this : instance) : list value :=
  match _tools this with
  | None => []
  | Some ts =>
      map (fun t => VDict [("type", VStr "function"); ("function", tool_spec t)])
          (filter (fun t => truthy (tool_spec t)) ts)
  end.

(** [vs] lists the tools [ts]: one function entry around the [tool_spec] of
    each tool whose [tool_spec] is truthy, in the order of the tools, and
    nothing for the other tools. *)
Inductive lists_tools : list tool -> list value -> Prop :=
| lists_none : lists_tools [] []
| lists_kept (t : tool) (ts : list tool) (vs : list value) :
    truthy (tool_spec t) = true ->
    lists_tools ts vs ->
    lists_tools (t :: ts)
      (VDict [("type", VStr "function"); ("function", tool_spec t)] :: vs)
| lists_skipped (t : tool) (ts : list tool) (vs : list value) :
    truthy (tool_spec t) = false ->
    lists_tools ts vs ->
    lists_tools (t :: ts) vs.

(** [self.total_tokens_consumed += n] and its two siblings *)
Definition add_total (n : Z) (this : instance) : instance := {|
  _heymans := _heymans this;
  _tools := _tools this;
  _tool_choice := _tool_choice this;
  total_tokens_consumed := total_tokens_consumed this + n;
  prompt_tokens_consumed := prompt_tokens_consumed this;
  completion_tokens_consumed := completion_tokens_consumed this
|}.

Definition add_prompt (n : Z) (this : instance) : instance := {|
  _heymans := _heymans this;
  _tools := _tools this;
  _tool_choice := _tool_choice this;
  total_tokens_consumed := total_tokens_consumed this;
  prompt_tokens_consumed := prompt_tokens_consumed this + n;
  completion_tokens_consumed := completion_tokens_consumed this
|}.

Definition add_completion (n : Z) (this : instance) : instance := {|
  _heymans := _heymans this;
  _tools := _tools this;
  _tool_choice := _tool_choice this;
  total_tokens_consumed := total_tokens_consumed this;
  prompt_tokens_consumed := prompt_tokens_consumed this;
  completion_tokens_consumed := completion_tokens_consumed this + n
|}.

(** [len(reply) if isinstance(reply, str) else 0] *)
Definition reply_length (reply : value) : Z :=
  match reply with
  | VStr s => Z.of_nat (String.length s)
  | _ => 0
  end.

(** [predict] *)
Definition predict (messages : value) (track_tokens : bool) : M value :=
  response <- call invoke messages ;;
  reply <- lift (BaseModel.get_response response) ;;
  msg_len <- lift (BaseModel.messages_length messages) ;;
  let prompt_tokens := msg_len / BaseModel.characters_per_token in
  let reply_len := reply_length reply in
  (if track_tokens then
     let completion_tokens := reply_len / BaseModel.characters_per_token in
     let total_tokens := prompt_tokens + completion_tokens in
     modify_self (add_total total_tokens) ;;;
     modify_self (add_prompt prompt_tokens) ;;;
     modify_self (add_completion completion_tokens)
   else ret tt) ;;;
  ret reply.

(** The [try] block of [predict_multiple]: a loop that is already running
    cannot be re-entered, every other case can run the coroutines. *)
Definition use_async (loop : event_loop) : bool :=
  match loop with
  | Loop is_running => if negb is_running then true else false
  | NoLoop => true
  end.

(** The inner coroutine of [predict_multiple].  [asyncio.gather] returns the
    results in the order of its arguments; the coroutines are run here in
    that order, one of the schedules of the loop. *)
Definition wrap_gather (prompts : list value) : M (list value) :=
  predictions <- mapM (call async_invoke) prompts ;;
  mapM (fun p => lift (BaseModel.get_response p)) predictions.

(** [predict_multiple] *)
Definition predict_multiple (loop : event_loop) (prompts : list value)
  : M (list value) :=
  prompts <- mapM (fun prompt =>
                     m <- lift (BaseModel.convert_message prompt) ;;
                     ret (VList [m])) prompts ;;
  if negb (use_async loop) then
    mapM (fun prompt =>
            r <- call invoke prompt ;;
            lift (BaseModel.get_response r)) prompts
  else wrap_gather prompts.

(** The method [predict_multiple] sends the message lists through: the
    coroutine one unless a loop is already running. *)
Definition sender (loop : event_loop)
  : value -> world -> result value * world :=
  if use_async loop then async_invoke else invoke.

(** [[convert_message(prompt)]], the message list made of one prompt. *)
Definition single (prompt : value) : result value :=
  let? m := BaseModel.convert_message prompt in Ok (VList [m]).

(** [served f w ps xs w'] : sending the message lists [ps] with [f], one
    after the other from the provider state [w], gives responses whose
    contents are [xs], in this order, and ends in the provider state [w']. *)
Inductive served (f : value -> world -> result value * world)
  : world -> list value -> list value -> world -> Prop :=
| served_nil (w : world) : served f w [] [] w
| served_cons (w w1 w2 : world) (p r x : value) (ps xs : list value) :
    f p w = (Ok r, w1) ->
    BaseModel.get_response r = Ok x ->
    served f w1 ps xs w2 ->
    served f w (p :: ps) (x :: xs) w2.

(** ** Sequences of method calls on one instance *)

Inductive op : Type :=
| OpInvalidTool
| OpGetResponse (response : value)
| OpTools
| OpInvoke (messages : value)
| OpAsyncInvoke (messages : value)
| OpMessagesLength (messages : value)
| OpConvertMessage (message : value)
| OpPredict (messages : value) (track_tokens : bool)
| OpPredictMultiple (loop : event_loop) (prompts : list value).

(** The state after a call, whether it returned or raised. *)
Definition step (o : op) (s : state) : state :=
  match o with
  | OpInvalidTool | OpGetResponse _ | OpTools
  | OpMessagesLength _ | OpConvertMessage _ => s
  | OpInvoke messages => snd (call invoke messages s)
  | OpAsyncInvoke messages => snd (call async_invoke messages s)
  | OpPredict messages track_tokens => snd (predict messages track_tokens s)
  | OpPredictMultiple loop prompts => snd (predict_multiple loop prompts s)
  end.

Definition run (ops : list op) (s : state) : state :=
  fold_left (fun s o => step o s) ops s.

(** The calls that ask for token tracking. *)
Definition tracks_tokens (o : op) : bool :=
  match o with
  | OpPredict _ track_tokens => track_tokens
  | _ => false
  end.

(** What [predict] accounts for messages of length [msg_len] and [reply]. *)
Definition account (msg_len : Z) (reply : value) (this : instance) : instance :=
  let prompt_tokens := msg_len / BaseModel.characters_per_token in
  let completion_tokens :=
    reply_length reply / BaseModel.characters_per_token in
  add_completion completion_tokens
    (add_prompt prompt_tokens
       (add_total (prompt_tokens + completion_tokens) this)).

(** A computation that does not touch the attributes of the instance. *)
Definition keeps_self {A : Type} (m : M A) : Prop :=
  forall s : state, self (snd (m s)) = self s.

(** The invariant of the usage counters. *)
Definition counters_ok (this : instance) : Prop :=
  total_tokens_consumed this
  = prompt_tokens_consumed this + completion_tokens_consumed this
  /\ 0 <= prompt_tokens_consumed this
  /\ 0 <= completion_tokens_consumed this
  /\ 0 <= total_tokens_consumed this.

End Model.

Arguments state world : clear implicits.
Arguments M world A : clear implicits.

Create HintDb keeps discriminated.

(** ** A provider to run the model on

    It answers every request with an assistant message that repeats the text
    of the last message it was sent, and counts the requests it served. *)
Definition last_text (messages : value) : value :=
  match messages with
  | VStr s => VStr s
  | VList l =>
      match last l VNone with
      | VMsg _ c => c
      | VDict d =>
          match dict_get d "content" with
          | Some c => c
          | None => VNone
          end
      | _ => VNone
      end
  | _ => VNone
  end.

Definition echo_provider : Provider nat := {|
  invoke := fun messages served =>
    (Ok (VMsg AIMessage (last_text messages)), S served);
  async_invoke := fun messages served =>
    (Ok (VMsg AIMessage (last_text messages)), S served)
|}.

Definition fresh : instance := __init__ VNone None (VStr "auto").

(** A provider with a quota: it answers like [echo_provider] as long as
    requests are left, and raises once they are used up. *)
Definition quota_provider : Provider nat := {|
  invoke := fun messages left =>
    match left with
    | O => (Raise (ProviderError "quota exceeded"), O)
    | S left' => (Ok (VMsg AIMessage (last_text messages)), left')
    end;
  async_invoke := fun messages left =>
    match left with
    | O => (Raise (ProviderError "quota exceeded"), O)
    | S left' => (Ok (VMsg AIMessage (last_text messages)), left')
    end
|}.

(** * Properties *)

(** ** [convert_message] *)

(** C1: each of the four supported message variants is converted to a
    role/content record that carries the content of the message unchanged;
    a SystemMessage gets the role system, an AIMessage the role assistant, a
    HumanMessage the role user and a FunctionMessage the role tool. *)
Theorem convert_message_roles :
  forall content : value,
    BaseModel.convert_message (VMsg SystemMessage content)
    = Ok (VDict [("role", VStr "system"); ("content", content)])
    /\ BaseModel.convert_message (VMsg AIMessage content)
       = Ok (VDict [("role", VStr "assistant"); ("content", content)])
    /\ BaseModel.convert_message (VMsg HumanMessage content)
       = Ok (VDict [("role", VStr "user"); ("content", content)])
    /\ BaseModel.convert_message (VMsg FunctionMessage content)
       = Ok (VDict [("role", VStr "tool"); ("content", content)])
    /\ (forall (c : msg_class) (r : value),
          BaseModel.convert_message (VMsg c content) = Ok r ->
          getitem r "content" = Ok content
          /\ exists role : string,
              getitem r "role" = Ok (VStr role)
              /\ (role = "system" <-> c = SystemMessage)
              /\ (role = "assistant" <-> c = AIMessage)
              /\ (role = "user" <-> c = HumanMessage)
              /\ (role = "tool" <-> c = FunctionMessage)).
Proof.
  intro content. repeat (split; [reflexivity|]).
  intros c r H.
  destruct c; try discriminate H; inversion H; subst;
    (split; [reflexivity|]); eexists; (split; [reflexivity|]);
    repeat split; intro E; try reflexivity; discriminate E.
Qed.

Lemma convert_message_roles_witness :
  getitem (VDict [("role", VStr "tool"); ("content", VStr "42")]) "content"
  = Ok (VStr "42")
  /\ exists role : string,
      getitem (VDict [("role", VStr "tool"); ("content", VStr "42")]) "role"
      = Ok (VStr role)
      /\ (role = "system" <-> FunctionMessage = SystemMessage)
      /\ (role = "assistant" <-> FunctionMessage = AIMessage)
      /\ (role = "user" <-> FunctionMessage = HumanMessage)
      /\ (role = "tool" <-> FunctionMessage = FunctionMessage).
Proof.
  apply (proj2 (proj2 (proj2 (proj2 (convert_message_roles (VStr "42")))))
           FunctionMessage).
  reflexivity.
Defined.

(** The record that [convert_message] builds can be read back. *)
Lemma dict_role_content_fields :
  forall role content,
    getitem (dict_role_content role content) "role" = Ok (VStr role)
    /\ getitem (dict_role_content role content) "content" = Ok content.
Proof.
  intros role content. split; reflexivity.
Qed.

(** C2, as stated, fails: a plain string is not one of the four variants and
    still is converted, not rejected. *)
Lemma plain_string_is_not_rejected :
  ~ (forall v : value,
        supported_variant v = false ->
        exists e, BaseModel.convert_message v = Raise e).
Proof.
  intro H. destruct (H (VStr "hi") eq_refl) as [e He]. discriminate He.
Qed.

(** C2, amended: an input that is neither a string nor one of the four
    variants raises ValueError carrying that input, and each of the four
    variants returns a record. *)
Theorem convert_message_total_on_variants :
  forall v : value,
    (supported_variant v = true ->
     exists role content,
       BaseModel.convert_message v = Ok (dict_role_content role content))
    /\ (supported_variant v = false -> isinstance_str v = false ->
        BaseModel.convert_message v = Raise (ValueError v)).
Proof.
  intro v. split.
  - destruct v as [| | | | | | |c content]; try discriminate.
    destruct c; try discriminate; intros _; eexists; eexists; reflexivity.
  - destruct v as [| | | | | | |c content]; try reflexivity; try discriminate.
    destruct c; try discriminate; reflexivity.
Qed.

Lemma convert_message_total_on_variants_witness :
  (exists role content,
      BaseModel.convert_message (VMsg AIMessage (VStr "ok"))
      = Ok (dict_role_content role content))
  /\ BaseModel.convert_message (VInt 3) = Raise (ValueError (VInt 3))
  /\ BaseModel.convert_message (VMsg ChatMessage (VStr "x"))
     = Raise (ValueError (VMsg ChatMessage (VStr "x"))).
Proof.
  split; [|split].
  - apply (convert_message_total_on_variants (VMsg AIMessage (VStr "ok"))).
    reflexivity.
  - apply (convert_message_total_on_variants (VInt 3)); reflexivity.
  - apply (convert_message_total_on_variants (VMsg ChatMessage (VStr "x")));
      reflexivity.
Defined.

(** C8: a plain string is accepted and becomes a user message with the
    string as its content. *)
Theorem convert_message_plain_string :
  forall s : string,
    BaseModel.convert_message (VStr s)
    = Ok (VDict [("role", VStr "user"); ("content", VStr s)])
    /\ (exists r : value,
          BaseModel.convert_message (VStr s) = Ok r
          /\ getitem r "role" = Ok (VStr "user")
          /\ getitem r "content" = Ok (VStr s)
          /\ len r = Ok 2).
Proof.
  intro s. split; [reflexivity|].
  eexists. repeat split; reflexivity.
Qed.

(** ** [messages_length] *)

Lemma sum_cons : forall (x : Z) (l : list Z), sum (x :: l) = x + sum l.
Proof.
  unfold sum. intros x l. simpl.
  assert (shift : forall (t : list Z) (a b : Z),
             fold_left Z.add t (a + b) = a + fold_left Z.add t b).
  { induction t as [|y t IH]; intros a b; simpl.
    - reflexivity.
    - rewrite <- Z.add_assoc. apply IH. }
  rewrite <- (shift l x 0), Z.add_0_r. reflexivity.
Qed.

Lemma sum_nonneg : forall l : list Z, Forall (fun n => 0 <= n) l -> 0 <= sum l.
Proof.
  induction 1 as [|x l Hx _ IH].
  - unfold sum. simpl. lia.
  - rewrite sum_cons. lia.
Qed.

Lemma len_nonneg : forall (v : value) (n : Z), len v = Ok n -> 0 <= n.
Proof.
  intros v n H. destruct v; simpl in H; inversion H; subst; apply Nat2Z.is_nonneg.
Qed.

Lemma mapR_Forall :
  forall {A B : Type} (f : A -> result B) (P : B -> Prop),
    (forall x y, f x = Ok y -> P y) ->
    forall l ys, mapR f l = Ok ys -> Forall P ys.
Proof.
  intros A B f P Hf. induction l as [|x t IH]; intros ys H; simpl in H.
  - inversion H. constructor.
  - destruct (f x) as [y|e] eqn:Ex; simpl in H; [|discriminate].
    destruct (mapR f t) as [ys'|e] eqn:Et; simpl in H; [|discriminate].
    inversion H; subst. constructor; eauto.
Qed.

Lemma messages_length_nonneg :
  forall (messages : value) (n : Z),
    BaseModel.messages_length messages = Ok n -> 0 <= n.
Proof.
  intros messages n. unfold BaseModel.messages_length.
  destruct (isinstance_str messages).
  - apply len_nonneg.
  - destruct (iterate messages) as [ms|e]; simpl; [|discriminate].
    match goal with |- context [mapR ?f ms] => destruct (mapR f ms) as [lens|e] eqn:E end;
      simpl; [|discriminate].
    intro H. inversion H; subst. apply sum_nonneg.
    revert E. apply mapR_Forall. intros m k Hk.
    destruct (if hasattr_content m then getattr_content m else getitem m "content")
      as [c|e]; simpl in Hk; [|discriminate].
    eapply len_nonneg; eassumption.
Qed.

Lemma messages_length_texts :
  forall (ms : list value) (texts : list string),
    Forall2 text_content ms texts ->
    BaseModel.messages_length (VList ms) = Ok (sum (map characters texts)).
Proof.
  intros ms texts H. unfold BaseModel.messages_length. simpl.
  match goal with |- context [mapR ?f ms] =>
    assert (E : mapR f ms = Ok (map characters texts)) end.
  { induction H as [|m s ms texts Hm _ IH]; simpl.
    - reflexivity.
    - rewrite IH. destruct Hm as [c s|d s Hd]; simpl.
      + reflexivity.
      + rewrite Hd. reflexivity. }
  rewrite E. reflexivity.
Qed.

Lemma reply_length_nonneg : forall reply : value, 0 <= reply_length reply.
Proof.
  destruct reply; simpl; try lia.
Qed.

(** ** [predict] and the usage counters *)

Section Counters.

Context {world : Type} {provider : Provider world}.

(** [predict], one statement at a time. *)
Lemma predict_cases :
  forall (messages : value) (track_tokens : bool) (s : state world),
    predict messages track_tokens s =
    match invoke messages (env s) with
    | (Raise e, w) => (Raise e, {| self := self s; env := w |})
    | (Ok response, w) =>
        match BaseModel.get_response response with
        | Raise e => (Raise e, {| self := self s; env := w |})
        | Ok reply =>
            match BaseModel.messages_length messages with
            | Raise e => (Raise e, {| self := self s; env := w |})
            | Ok msg_len =>
                (Ok reply,
                 {| self := if track_tokens
                            then account msg_len reply (self s)
                            else self s;
                    env := w |})
            end
        end
    end.
Proof.
  intros messages track_tokens s.
  unfold predict, bind, call, lift.
  destruct (invoke messages (env s)) as [[response|e] w]; [|reflexivity].
  destruct (BaseModel.get_response response) as [reply|e]; [|reflexivity].
  destruct (BaseModel.messages_length messages) as [msg_len|e]; [|reflexivity].
  destruct track_tokens; reflexivity.
Qed.

(** C3: with track_tokens=True, a call of predict that gets the reply adds
    messages_length(messages) // 4 to the prompt tokens, len(reply) // 4 (0
    when the reply is not a string) to the completion tokens, and their sum
    to the total tokens, with characters_per_token = 4; messages_length of a
    string is its number of characters, and of a list of messages with text
    contents the sum of the numbers of characters of the contents. *)
Theorem predict_token_accounting :
  forall (s : state world) (messages response reply : value) (w : world)
         (msg_len : Z),
    invoke messages (env s) = (Ok response, w) ->
    BaseModel.get_response response = Ok reply ->
    BaseModel.messages_length messages = Ok msg_len ->
    let prompt_tokens := msg_len / 4 in
    let completion_tokens :=
      match reply with
      | VStr text => characters text / 4
      | _ => 0
      end in
    let s' := snd (predict messages true s) in
    BaseModel.characters_per_token = 4
    /\ fst (predict messages true s) = Ok reply
    /\ prompt_tokens_consumed (self s')
       = prompt_tokens_consumed (self s) + prompt_tokens
    /\ completion_tokens_consumed (self s')
       = completion_tokens_consumed (self s) + completion_tokens
    /\ total_tokens_consumed (self s')
       = total_tokens_consumed (self s) + (prompt_tokens + completion_tokens)
    /\ (forall text : string,
           BaseModel.messages_length (VStr text) = Ok (characters text))
    /\ (forall (ms : list value) (texts : list string),
           Forall2 text_content ms texts ->
           BaseModel.messages_length (VList ms)
           = Ok (sum (map characters texts))).
Proof.
  intros s messages response reply w msg_len Hinvoke Hreply Hlen.
  cbv zeta. rewrite predict_cases, Hinvoke, Hreply, Hlen.
  assert (Hcompletion :
            reply_length reply / BaseModel.characters_per_token
            = match reply with
              | VStr text => characters text / 4
              | _ => 0
              end).
  { destruct reply; reflexivity. }
  repeat split; simpl; try (rewrite Hcompletion); try reflexivity.
  apply messages_length_texts.
Qed.

(** C9: with track_tokens=False, predict leaves the three counters as they
    were, whether it returns or raises, and what it returns or raises, and
    the state it leaves the provider in, are those of the same call with
    track_tokens=True. *)
Theorem predict_untracked_frame :
  forall (s : state world) (messages : value),
    total_tokens_consumed (self (snd (predict messages false s)))
    = total_tokens_consumed (self s)
    /\ prompt_tokens_consumed (self (snd (predict messages false s)))
       = prompt_tokens_consumed (self s)
    /\ completion_tokens_consumed (self (snd (predict messages false s)))
       = completion_tokens_consumed (self s)
    /\ fst (predict messages false s) = fst (predict messages true s)
    /\ env (snd (predict messages false s)) = env (snd (predict messages true s)).
Proof.
  intros s messages. rewrite !predict_cases.
  destruct (invoke messages (env s)) as [[response|e] w];
    [|repeat split; reflexivity].
  destruct (BaseModel.get_response response) as [reply|e];
    [|repeat split; reflexivity].
  destruct (BaseModel.messages_length messages) as [msg_len|e];
    repeat split; reflexivity.
Qed.

End Counters.

Lemma predict_token_accounting_witness :
  let s := {| self := fresh; env := 0%nat |} in
  let messages := VList [VMsg SystemMessage (VStr "be brief");
                         dict_role_content "user" (VStr "hello world")] in
  fst (predict (provider := echo_provider) messages true s)
  = Ok (VStr "hello world")
  /\ prompt_tokens_consumed
       (self (snd (predict (provider := echo_provider) messages true s))) = 4
  /\ completion_tokens_consumed
       (self (snd (predict (provider := echo_provider) messages true s))) = 2
  /\ total_tokens_consumed
       (self (snd (predict (provider := echo_provider) messages true s))) = 6.
Proof.
  intros s messages.
  destruct (predict_token_accounting (provider := echo_provider)
              s messages (VMsg AIMessage (VStr "hello world"))
              (VStr "hello world") 1%nat 19 eq_refl eq_refl eq_refl)
    as (_ & Hreply & Hprompt & Hcompletion & Htotal & _).
  exact (conj Hreply (conj Hprompt (conj Hcompletion Htotal))).
Defined.

(** C6: whatever the arguments of the constructor, the three counters of the
    new instance are zero. *)
Theorem init_counters_zero :
  forall (heymans : value) (tools : option (list tool)) (tool_choice : value),
    total_tokens_consumed (__init__ heymans tools tool_choice) = 0
    /\ prompt_tokens_consumed (__init__ heymans tools tool_choice) = 0
    /\ completion_tokens_consumed (__init__ heymans tools tool_choice) = 0.
Proof.
  intros. repeat split; reflexivity.
Qed.

(** ** The counters over sequences of calls *)

Section Invariant.

Context {world : Type} {provider : Provider world}.

Lemma keeps_self_ret : forall {A : Type} (a : A), keeps_self (world := world) (ret a).
Proof. intros A a s. reflexivity. Qed.

Lemma keeps_self_lift :
  forall {A : Type} (r : result A), keeps_self (world := world) (lift r).
Proof. intros A r s. reflexivity. Qed.

Lemma keeps_self_call :
  forall (f : value -> world -> result value * world) (messages : value),
    keeps_self (call f messages).
Proof.
  intros f messages s. unfold call.
  destruct (f messages (env s)) as [r w]. reflexivity.
Qed.

Lemma keeps_self_bind :
  forall {A B : Type} (m : M world A) (k : A -> M world B),
    keeps_self m -> (forall a, keeps_self (k a)) -> keeps_self (bind m k).
Proof.
  intros A B m k Hm Hk s. unfold bind.
  specialize (Hm s). destruct (m s) as [[a|e] s1]; simpl in Hm.
  - rewrite Hk. exact Hm.
  - exact Hm.
Qed.

Lemma keeps_self_mapM :
  forall {A B : Type} (f : A -> M world B),
    (forall x, keeps_self (f x)) -> forall l, keeps_self (mapM f l).
Proof.
  intros A B f Hf. induction l as [|x t IH]; simpl.
  - apply keeps_self_ret.
  - apply keeps_self_bind; [apply Hf|]. intro y.
    apply keeps_self_bind; [apply IH|]. intro ys. apply keeps_self_ret.
Qed.

Hint Resolve keeps_self_ret keeps_self_lift keeps_self_call : keeps.
Hint Extern 2 (keeps_self (bind _ _)) =>
  apply keeps_self_bind; [|intro] : keeps.
Hint Extern 2 (keeps_self (mapM _ _)) =>
  apply keeps_self_mapM; intro : keeps.

Lemma keeps_self_predict_multiple :
  forall (loop : event_loop) (prompts : list value),
    keeps_self (predict_multiple loop prompts).
Proof.
  intros loop prompts. unfold predict_multiple, wrap_gather.
  apply keeps_self_bind; [auto with keeps|].
  intro ps. destruct (negb (use_async loop)); auto 6 with keeps.
Qed.

(** A call either leaves the attributes alone or accounts one prediction. *)
Lemma step_self :
  forall (o : op) (s : state world),
    self (step o s) = self s
    \/ exists (msg_len : Z) (reply : value),
        0 <= msg_len /\ self (step o s) = account msg_len reply (self s).
Proof.
  intros o s. destruct o as [| | |m|m| | |m track|loop prompts]; simpl;
    try (left; reflexivity).
  - left. apply keeps_self_call.
  - left. apply keeps_self_call.
  - rewrite predict_cases.
    destruct (invoke m (env s)) as [[response|e] w]; [|left; reflexivity].
    destruct (BaseModel.get_response response) as [reply|e];
      [|left; reflexivity].
    destruct (BaseModel.messages_length m) as [msg_len|e] eqn:Hlen;
      [|left; reflexivity].
    destruct track; [|left; reflexivity].
    right. exists msg_len, reply. split; [|reflexivity].
    eapply messages_length_nonneg; eassumption.
  - left. apply keeps_self_predict_multiple.
Qed.

Lemma account_counters :
  forall (msg_len : Z) (reply : value) (this : instance),
    0 <= msg_len ->
    exists p c : Z,
      0 <= p /\ 0 <= c
      /\ prompt_tokens_consumed (account msg_len reply this)
         = prompt_tokens_consumed this + p
      /\ completion_tokens_consumed (account msg_len reply this)
         = completion_tokens_consumed this + c
      /\ total_tokens_consumed (account msg_len reply this)
         = total_tokens_consumed this + (p + c).
Proof.
  intros msg_len reply this Hlen.
  exists (msg_len / BaseModel.characters_per_token),
         (reply_length reply / BaseModel.characters_per_token).
  pose proof (reply_length_nonneg reply) as Hreply.
  unfold BaseModel.characters_per_token.
  repeat split; simpl; try reflexivity; apply Z.div_pos; lia.
Qed.

Lemma run_snoc :
  forall (ops : list op) (o : op) (s : state world),
    run (ops ++ [o]) s = step o (run ops s).
Proof.
  intros ops o s. unfold run. rewrite fold_left_app. reflexivity.
Qed.

(** C4: after construction the total counter is the sum of the other two and
    no counter is negative, and every method call, hence every sequence of
    method calls, on an instance for which this holds leaves an instance for
    which it holds; predict does so for both values of track_tokens. *)
Theorem counters_invariant :
  (forall (heymans : value) (tools : option (list tool)) (tool_choice : value),
      counters_ok (__init__ heymans tools tool_choice))
  /\ (forall (o : op) (s : state world),
        counters_ok (self s) -> counters_ok (self (step o s)))
  /\ (forall (ops : list op) (s : state world),
        counters_ok (self s) -> counters_ok (self (run ops s))).
Proof.
  assert (Hstep : forall (o : op) (s : state world),
             counters_ok (self s) -> counters_ok (self (step o s))).
  { intros o s Hok.
    destruct (step_self o s) as [E|(msg_len & reply & Hlen & E)]; rewrite E.
    - exact Hok.
    - destruct (account_counters msg_len reply (self s) Hlen)
        as (p & c & Hp & Hc & Ep & Ec & Et).
      unfold counters_ok in *. rewrite Ep, Ec, Et. lia. }
  split; [|split].
  - intros. unfold counters_ok. simpl. lia.
  - exact Hstep.
  - intros ops. induction ops as [|o ops IH] using rev_ind; intros s Hok.
    + exact Hok.
    + rewrite run_snoc. apply Hstep, IH, Hok.
Qed.

(** C5: over every sequence of method calls on an instance, each of the
    three counters ends at least as large as it started: no call lowers a
    counter, none sets it back. *)
Theorem counters_monotone :
  forall (ops : list op) (s : state world),
    total_tokens_consumed (self s) <= total_tokens_consumed (self (run ops s))
    /\ prompt_tokens_consumed (self s)
       <= prompt_tokens_consumed (self (run ops s))
    /\ completion_tokens_consumed (self s)
       <= completion_tokens_consumed (self (run ops s)).
Proof.
  intros ops. induction ops as [|o ops IH] using rev_ind; intro s.
  - unfold run. simpl. lia.
  - rewrite run_snoc. specialize (IH s).
    destruct (step_self o (run ops s)) as [E|(msg_len & reply & Hlen & E)];
      rewrite E.
    + exact IH.
    + destruct (account_counters msg_len reply (self (run ops s)) Hlen)
        as (p & c & Hp & Hc & Ep & Ec & Et).
      rewrite Ep, Ec, Et. lia.
Qed.

End Invariant.

(** ** [predict_multiple] *)

Section Multiple.

Context {world : Type} {provider : Provider world}.

Lemma mapM_pure :
  forall {A B : Type} (f : A -> M world B) (g : A -> result B),
    (forall x s, f x s = (g x, s)) ->
    forall l s, mapM f l s = (mapR g l, s).
Proof.
  intros A B f g Hfg. induction l as [|x t IH]; intro s; simpl.
  - reflexivity.
  - unfold bind. rewrite Hfg. destruct (g x) as [y|e]; simpl; [|reflexivity].
    rewrite IH. destruct (mapR g t) as [ys|e]; reflexivity.
Qed.

(** [predict_multiple] is the conversion of all prompts followed by one of
    the two ways of sending them. *)
Lemma predict_multiple_cases :
  forall (loop : event_loop) (prompts : list value) (s : state world),
    predict_multiple loop prompts s =
    match mapR single prompts with
    | Raise e => (Raise e, s)
    | Ok ps =>
        if negb (use_async loop)
        then mapM (fun prompt =>
                     bind (call invoke prompt)
                          (fun r => lift (BaseModel.get_response r))) ps s
        else wrap_gather ps s
    end.
Proof.
  intros loop prompts s. unfold predict_multiple. unfold bind at 1.
  rewrite (mapM_pure _ single).
  - destruct (mapR single prompts); [|reflexivity].
    destruct (negb (use_async loop)); reflexivity.
  - intros x s0. unfold bind, lift, ret, single.
    destruct (BaseModel.convert_message x); reflexivity.
Qed.

(** The loop of the synchronous branch, for any way [f] of sending. *)
Lemma loop_sound :
  forall (f : value -> world -> result value * world) (ps : list value)
         (s : state world) (xs : list value) (s' : state world),
    mapM (fun prompt =>
            bind (call f prompt) (fun r => lift (BaseModel.get_response r)))
         ps s = (Ok xs, s') ->
    served f (env s) ps xs (env s') /\ self s' = self s.
Proof.
  intros f. induction ps as [|p ps IH]; intros s xs s' H; simpl in H.
  - inversion H; subst. split; [constructor|reflexivity].
  - unfold bind at 1 2, call at 1, lift at 1 in H.
    destruct (f p (env s)) as [[r|e] w1] eqn:Ef; [|discriminate].
    destruct (BaseModel.get_response r) as [x|e] eqn:Er; [|discriminate].
    unfold bind, ret in H.
    destruct (mapM _ ps {| self := self s; env := w1 |})
      as [[ys|e] s2] eqn:Et; [|discriminate].
    inversion H; subst. apply IH in Et. destruct Et as [Hs Es].
    split; [|exact Es]. econstructor; eassumption.
Qed.

Lemma loop_complete :
  forall (f : value -> world -> result value * world) (w w' : world)
         (ps xs : list value),
    served f w ps xs w' ->
    forall a : instance,
      mapM (fun prompt =>
              bind (call f prompt) (fun r => lift (BaseModel.get_response r)))
           ps {| self := a; env := w |}
      = (Ok xs, {| self := a; env := w' |}).
Proof.
  intros f w w' ps xs H. induction H as [w|w w1 w2 p r x ps xs Hf Hr _ IH];
    intro a; simpl.
  - reflexivity.
  - unfold bind at 1 2, call at 1, lift at 1. simpl. rewrite Hf, Hr.
    unfold bind, ret. rewrite IH. reflexivity.
Qed.

(** The coroutine of the concurrent branch, for any way [f] of sending:
    all message lists are sent, then the contents are read. *)
Lemma gather_cases :
  forall (f : value -> world -> result value * world) (ps : list value)
         (s : state world),
    bind (mapM (call f) ps)
         (fun predictions =>
            mapM (fun p => lift (BaseModel.get_response p)) predictions) s
    = match mapM (call f) ps s with
      | (Ok rs, s1) => (mapR BaseModel.get_response rs, s1)
      | (Raise e, s1) => (Raise e, s1)
      end.
Proof.
  intros f ps s. unfold bind.
  destruct (mapM (call f) ps s) as [[rs|e] s1]; [|reflexivity].
  apply mapM_pure. reflexivity.
Qed.

Lemma gather_sound :
  forall (f : value -> world -> result value * world) (ps : list value)
         (s : state world) (xs : list value) (s' : state world),
    match mapM (call f) ps s with
    | (Ok rs, s1) => (mapR BaseModel.get_response rs, s1)
    | (Raise e, s1) => (Raise e, s1)
    end = (Ok xs, s') ->
    served f (env s) ps xs (env s') /\ self s' = self s.
Proof.
  intros f. induction ps as [|p ps IH]; intros s xs s' H; simpl in H.
  - inversion H; subst. split; [constructor|reflexivity].
  - unfold bind at 1, call at 1 in H.
    destruct (f p (env s)) as [[r|e] w1] eqn:Ef; [|discriminate].
    unfold bind, ret in H.
    specialize (IH {| self := self s; env := w1 |}).
    destruct (mapM (call f) ps {| self := self s; env := w1 |})
      as [[rs|e] s2]; [|discriminate].
    simpl in H.
    destruct (BaseModel.get_response r) as [x|e] eqn:Er; [|discriminate].
    destruct (mapR BaseModel.get_response rs) as [ys|e]; [|discriminate].
    simpl in H. inversion H; subst.
    destruct (IH ys s' eq_refl) as [Hs Es].
    split; [|exact Es]. econstructor; eassumption.
Qed.

Lemma gather_complete :
  forall (f : value -> world -> result value * world) (w w' : world)
         (ps xs : list value),
    served f w ps xs w' ->
    forall a : instance,
      match mapM (call f) ps {| self := a; env := w |} with
      | (Ok rs, s1) => (mapR BaseModel.get_response rs, s1)
      | (Raise e, s1) => (Raise e, s1)
      end = (Ok xs, {| self := a; env := w' |}).
Proof.
  intros f w w' ps xs H. induction H as [w|w w1 w2 p r x ps xs Hf Hr _ IH];
    intro a; simpl.
  - reflexivity.
  - unfold bind at 1, call at 1. simpl. rewrite Hf.
    unfold bind, ret. specialize (IH a).
    destruct (mapM (call f) ps {| self := a; env := w1 |})
      as [[rs|e] s2]; [|discriminate].
    simpl. rewrite Hr. simpl.
    destruct (mapR BaseModel.get_response rs) as [ys|e]; [|discriminate].
    inversion IH; subst. reflexivity.
Qed.

(** Both branches of [predict_multiple] are described by [served]. *)
Lemma predict_multiple_sound :
  forall (loop : event_loop) (prompts : list value) (s : state world)
         (xs : list value) (s' : state world),
    predict_multiple loop prompts s = (Ok xs, s') ->
    exists ps : list value,
      mapR single prompts = Ok ps
      /\ served (sender loop) (env s) ps xs (env s')
      /\ self s' = self s.
Proof.
  intros loop prompts s xs s' H. rewrite predict_multiple_cases in H.
  destruct (mapR single prompts) as [ps|e]; [|discriminate].
  exists ps. split; [reflexivity|]. unfold sender.
  destruct (use_async loop); simpl in H.
  - unfold wrap_gather in H. rewrite gather_cases in H.
    apply gather_sound. exact H.
  - apply loop_sound. exact H.
Qed.

Lemma predict_multiple_complete :
  forall (loop : event_loop) (prompts ps xs : list value) (w w' : world)
         (a : instance),
    mapR single prompts = Ok ps ->
    served (sender loop) w ps xs w' ->
    predict_multiple loop prompts {| self := a; env := w |}
    = (Ok xs, {| self := a; env := w' |}).
Proof.
  intros loop prompts ps xs w w' a Hps H.
  rewrite predict_multiple_cases, Hps. unfold sender in H.
  destruct (use_async loop); simpl.
  - unfold wrap_gather. rewrite gather_cases. apply gather_complete. exact H.
  - apply loop_complete. exact H.
Qed.

Lemma served_ext :
  forall (f g : value -> world -> result value * world) (w w' : world)
         (ps xs : list value),
    (forall p, In p ps -> forall w0, f p w0 = g p w0) ->
    served f w ps xs w' -> served g w ps xs w'.
Proof.
  intros f g w w' ps xs Hfg H.
  induction H as [w|w w1 w2 p r x ps xs Hf Hr _ IH].
  - constructor.
  - econstructor.
    + rewrite <- Hfg; [exact Hf|left; reflexivity].
    + exact Hr.
    + apply IH. intros q Hq. apply Hfg. right. exact Hq.
Qed.

Lemma served_length :
  forall (f : value -> world -> result value * world) (w w' : world)
         (ps xs : list value),
    served f w ps xs w' -> List.length xs = List.length ps.
Proof.
  induction 1; simpl; congruence.
Qed.

Lemma served_nth :
  forall (f : value -> world -> result value * world) (w w' : world)
         (ps xs : list value),
    served f w ps xs w' ->
    forall (i : nat) (p : value),
      nth_error ps i = Some p ->
      exists (r x : value) (w1 w2 : world),
        f p w1 = (Ok r, w2)
        /\ BaseModel.get_response r = Ok x
        /\ nth_error xs i = Some x.
Proof.
  induction 1 as [w|w w1 w2 p r x ps xs Hf Hr _ IH]; intros i q Hq.
  - destruct i; discriminate.
  - destruct i as [|i]; simpl in *.
    + inversion Hq; subst. exists r, x, w, w1. auto.
    + apply IH. exact Hq.
Qed.

Lemma single_nth :
  forall (prompts ps : list value),
    mapR single prompts = Ok ps ->
    List.length ps = List.length prompts
    /\ forall (i : nat) (prompt : value),
        nth_error prompts i = Some prompt ->
        exists m : value,
          BaseModel.convert_message prompt = Ok m
          /\ nth_error ps i = Some (VList [m]).
Proof.
  induction prompts as [|q prompts IH]; intros ps H; simpl in H.
  - inversion H; subst. split; [reflexivity|]. intros [|i] ?; discriminate.
  - unfold single at 1 in H.
    destruct (BaseModel.convert_message q) as [m|e] eqn:Em; [|discriminate].
    simpl in H.
    destruct (mapR single prompts) as [ps'|e]; [|discriminate].
    inversion H; subst. destruct (IH ps' eq_refl) as [Hlen Hnth].
    split; [simpl; congruence|].
    intros [|i] prompt Hp; simpl in *.
    + inversion Hp; subst. exists m. auto.
    + apply Hnth. exact Hp.
Qed.

Lemma single_In :
  forall (prompts ps : list value) (p : value),
    mapR single prompts = Ok ps -> In p ps ->
    exists prompt m : value,
      In prompt prompts
      /\ BaseModel.convert_message prompt = Ok m
      /\ p = VList [m].
Proof.
  intros prompts ps p Hps Hin.
  destruct (In_nth_error _ _ Hin) as [i Hi].
  destruct (single_nth prompts ps Hps) as [Hlen Hnth].
  destruct (nth_error prompts i) as [prompt|] eqn:Ep.
  - destruct (Hnth i prompt Ep) as (m & Hm & Hi').
    exists prompt, m. split; [eapply nth_error_In; eassumption|].
    split; [exact Hm|congruence].
  - apply nth_error_None in Ep.
    assert (nth_error ps i <> None) as Hsome by congruence.
    apply nth_error_Some in Hsome. lia.
Qed.

(** C7: predict_multiple takes the synchronous loop exactly when an event
    loop is already running and the concurrent gather otherwise; and when
    async_invoke answers every single-message prompt as invoke does, whatever
    list of responses one branch returns, the other branch returns too (from
    the same state, reaching the same state). *)
Theorem predict_multiple_branches_agree :
  (forall loop : event_loop, use_async loop = false <-> loop = Loop true)
  /\ (forall (prompts ps : list value) (s : state world),
        mapR single prompts = Ok ps ->
        predict_multiple (Loop true) prompts s
        = mapM (fun prompt =>
                  bind (call invoke prompt)
                       (fun r => lift (BaseModel.get_response r))) ps s
        /\ predict_multiple (Loop false) prompts s = wrap_gather ps s
        /\ predict_multiple NoLoop prompts s = wrap_gather ps s)
  /\ (forall prompts : list value,
        (forall prompt m : value,
            In prompt prompts ->
            BaseModel.convert_message prompt = Ok m ->
            forall w : world,
              async_invoke (VList [m]) w = invoke (VList [m]) w) ->
        forall (loop1 loop2 : event_loop) (s : state world)
               (xs : list value) (s' : state world),
          predict_multiple loop1 prompts s = (Ok xs, s') ->
          predict_multiple loop2 prompts s = (Ok xs, s')).
Proof.
  split; [|split].
  - intros [|[|]]; simpl; split; intro H; try reflexivity; discriminate.
  - intros prompts ps s Hps. rewrite !predict_multiple_cases, Hps.
    repeat split; reflexivity.
  - intros prompts Hsame loop1 loop2 s xs s' H.
    destruct (predict_multiple_sound _ _ _ _ _ H) as (ps & Hps & Hserved & Eself).
    assert (Hext : forall p, In p ps ->
                     forall w0, sender loop1 p w0 = sender loop2 p w0).
    { intros p Hp w0.
      destruct (single_In _ _ _ Hps Hp) as (prompt & m & Hin & Hm & ->).
      pose proof (Hsame prompt m Hin Hm w0) as E.
      unfold sender. destruct (use_async loop1), (use_async loop2); congruence. }
    pose proof (predict_multiple_complete loop2 prompts ps xs (env s) (env s')
                  (self s) Hps (served_ext _ _ _ _ _ _ Hext Hserved)) as Hret.
    destruct s as [a w], s' as [a' w']. simpl in *. subst a'. exact Hret.
Qed.

(** C10: predict_multiple returns exactly when every prompt converts and
    every message list, sent in order, is answered; the list it returns has
    the length of the input, and its i-th element is the content of a
    response to the singleton message list made of the converted i-th prompt,
    sent by invoke in the synchronous branch and by async_invoke in the
    concurrent one. *)
Theorem predict_multiple_in_order :
  forall (loop : event_loop) (prompts : list value) (s : state world),
    (forall (ps xs : list value) (w' : world),
        mapR single prompts = Ok ps ->
        served (sender loop) (env s) ps xs w' ->
        predict_multiple loop prompts s
        = (Ok xs, {| self := self s; env := w' |}))
    /\ (forall (xs : list value) (s' : state world),
          predict_multiple loop prompts s = (Ok xs, s') ->
          List.length xs = List.length prompts
          /\ forall (i : nat) (prompt : value),
              nth_error prompts i = Some prompt ->
              exists (m r x : value) (w1 w2 : world),
                BaseModel.convert_message prompt = Ok m
                /\ sender loop (VList [m]) w1 = (Ok r, w2)
                /\ BaseModel.get_response r = Ok x
                /\ nth_error xs i = Some x).
Proof.
  intros loop prompts s. split.
  - intros ps xs w' Hps Hserved.
    pose proof (predict_multiple_complete loop prompts ps xs (env s) w'
                  (self s) Hps Hserved) as Hret.
    destruct s as [a w]. exact Hret.
  - intros xs s' H.
    destruct (predict_multiple_sound _ _ _ _ _ H) as (ps & Hps & Hserved & _).
    destruct (single_nth _ _ Hps) as [Hlen Hnth].
    split.
    + rewrite (served_length _ _ _ _ _ Hserved). exact Hlen.
    + intros i prompt Hprompt.
      destruct (Hnth i prompt Hprompt) as (m & Hm & Hi).
      destruct (served_nth _ _ _ _ _ Hserved i _ Hi) as (r & x & w1 & w2 & Hf & Hr & Hx).
      exists m, r, x, w1, w2. auto.
Qed.

End Multiple.

Lemma predict_multiple_branches_agree_witness :
  predict_multiple (provider := echo_provider) NoLoop
    [VStr "one"; VMsg HumanMessage (VStr "two")]
    {| self := fresh; env := 0%nat |}
  = (Ok [VStr "one"; VStr "two"], {| self := fresh; env := 2%nat |}).
Proof.
  apply (proj2 (proj2 (predict_multiple_branches_agree
                         (provider := echo_provider)))
           [VStr "one"; VMsg HumanMessage (VStr "two")]
           (fun _ _ _ _ _ => eq_refl)
           (Loop true) NoLoop).
  reflexivity.
Defined.

Lemma predict_multiple_in_order_witness :
  List.length [VStr "one"; VStr "two"]
  = List.length [VStr "one"; VMsg HumanMessage (VStr "two")]
  /\ forall (i : nat) (prompt : value),
      nth_error [VStr "one"; VMsg HumanMessage (VStr "two")] i = Some prompt ->
      exists (m r x : value) (w1 w2 : nat),
        BaseModel.convert_message prompt = Ok m
        /\ sender (provider := echo_provider) (Loop true) (VList [m]) w1
           = (Ok r, w2)
        /\ BaseModel.get_response r = Ok x
        /\ nth_error [VStr "one"; VStr "two"] i = Some x.
Proof.
  apply (proj2 (predict_multiple_in_order (provider := echo_provider)
                  (Loop true) [VStr "one"; VMsg HumanMessage (VStr "two")]
                  {| self := fresh; env := 0%nat |})
           [VStr "one"; VStr "two"] {| self := fresh; env := 2%nat |}).
  reflexivity.
Defined.

Lemma counters_invariant_witness :
  counters_ok
    (self (run (provider := echo_provider)
             [OpPredict (VStr "hello world") true;
              OpPredictMultiple (Loop true) [VStr "one"];
              OpPredict (VList [VMsg HumanMessage (VStr "more")]) false;
              OpPredict (VList [VMsg HumanMessage (VStr "even more")]) true]
             {| self := fresh; env := 0%nat |})).
Proof.
  apply (proj2 (proj2 (counters_invariant (provider := echo_provider)))).
  unfold counters_ok. simpl. lia.
Defined.

(** * Further properties of the methods *)

(** ** [convert_message]: the records it builds *)

(** A record built by convert_message is the dict of the two keys role and
    content, in this order and no other; its role is one of system,
    assistant, user and tool, and its content is the string itself for a
    plain string and the content attribute for a message object. *)
Theorem convert_message_record_shape :
  forall m r : value,
    BaseModel.convert_message m = Ok r ->
    exists (role : string) (content : value),
      r = VDict [("role", VStr role); ("content", content)]
      /\ getitem r "role" = Ok (VStr role)
      /\ getitem r "content" = Ok content
      /\ len r = Ok 2
      /\ In role ["system"; "assistant"; "user"; "tool"]
      /\ ((isinstance_str m = true /\ content = m)
          \/ (isinstance_str m = false /\ getattr_content m = Ok content)).
Proof.
  intros m r H.
  destruct m as [| | |s| | | |c content]; try discriminate H.
  - inversion H; subst. exists "user", (VStr s).
    repeat (split; [reflexivity|]). simpl. auto 6.
  - destruct c; try discriminate H; inversion H; subst;
      eexists; exists content; repeat (split; [reflexivity|]);
      simpl; auto 8.
Qed.

Lemma convert_message_record_shape_witness :
  exists (role : string) (content : value),
    VDict [("role", VStr "tool"); ("content", VStr "42")]
    = VDict [("role", VStr role); ("content", content)]
    /\ getitem (VDict [("role", VStr "tool"); ("content", VStr "42")]) "role"
       = Ok (VStr role)
    /\ getitem (VDict [("role", VStr "tool"); ("content", VStr "42")]) "content"
       = Ok content
    /\ len (VDict [("role", VStr "tool"); ("content", VStr "42")]) = Ok 2
    /\ In role ["system"; "assistant"; "user"; "tool"]
    /\ ((isinstance_str (VMsg FunctionMessage (VStr "42")) = true
         /\ content = VMsg FunctionMessage (VStr "42"))
        \/ (isinstance_str (VMsg FunctionMessage (VStr "42")) = false
            /\ getattr_content (VMsg FunctionMessage (VStr "42")) = Ok content)).
Proof.
  apply (convert_message_record_shape (VMsg FunctionMessage (VStr "42"))).
  reflexivity.
Defined.

(** convert_message does not accept its own output: converting a record it
    has built raises ValueError, so a message cannot be converted twice. *)
Theorem convert_message_not_twice :
  forall m r : value,
    BaseModel.convert_message m = Ok r ->
    BaseModel.convert_message r = Raise (ValueError r).
Proof.
  intros m r H.
  destruct m as [| | |s| | | |c content]; try discriminate H.
  - inversion H; subst. reflexivity.
  - destruct c; try discriminate H; inversion H; subst; reflexivity.
Qed.

Lemma convert_message_not_twice_witness :
  BaseModel.convert_message (dict_role_content "user" (VStr "hi"))
  = Raise (ValueError (dict_role_content "user" (VStr "hi"))).
Proof.
  apply (convert_message_not_twice (VStr "hi")). reflexivity.
Defined.

(** Two inputs with the same record have the same content (the string
    itself for a plain string, the content attribute for a message object),
    and are instances of the same message classes, except that a plain
    string and a HumanMessage are converted alike. *)
Theorem convert_message_same_record :
  forall m1 m2 r : value,
    BaseModel.convert_message m1 = Ok r ->
    BaseModel.convert_message m2 = Ok r ->
    (if isinstance_str m1 then Ok m1 else getattr_content m1)
    = (if isinstance_str m2 then Ok m2 else getattr_content m2)
    /\ ((isinstance_str m1 = isinstance_str m2
         /\ forall c : msg_class, isinstance m1 c = isinstance m2 c)
        \/ (isinstance_str m1 = true /\ isinstance m2 HumanMessage = true)
        \/ (isinstance m1 HumanMessage = true /\ isinstance_str m2 = true)).
Proof.
  intros m1 m2 r H1 H2.
  destruct m1 as [| | |s1| | | |c1 x1]; try discriminate H1;
    destruct m2 as [| | |s2| | | |c2 x2]; try discriminate H2.
  - inversion H1; subst. inversion H2; subst.
    split; [reflexivity|]. left. split; reflexivity.
  - destruct c2; try discriminate H2; inversion H1; subst;
      inversion H2; subst.
    split; [reflexivity|]. right. left. split; reflexivity.
  - destruct c1; try discriminate H1; inversion H2; subst;
      inversion H1; subst.
    split; [reflexivity|]. right. right. split; reflexivity.
  - destruct c1; try discriminate H1; destruct c2; try discriminate H2;
      inversion H1; subst; inversion H2; subst;
      (split; [reflexivity|]); left; split; reflexivity.
Qed.

Lemma convert_message_same_record_witness :
  Ok (VStr "hi") = getattr_content (VMsg HumanMessage (VStr "hi"))
  /\ isinstance (VMsg HumanMessage (VStr "hi")) HumanMessage = true.
Proof.
  destruct (convert_message_same_record (VStr "hi")
              (VMsg HumanMessage (VStr "hi"))
              (VDict [("role", VStr "user"); ("content", VStr "hi")])
              eq_refl eq_refl) as [Hcontent _].
  exact (conj Hcontent eq_refl).
Defined.

(** ** [messages_length]: lists of messages *)

Lemma mapR_app :
  forall {A B : Type} (f : A -> result B) (a b : list A),
    mapR f (a ++ b)
    = let? xs := mapR f a in let? ys := mapR f b in Ok (xs ++ ys)%list.
Proof.
  intros A B f a b. induction a as [|x a IH]; simpl.
  - destruct (mapR f b); reflexivity.
  - destruct (f x) as [y|e]; simpl; [|reflexivity].
    rewrite IH. destruct (mapR f a) as [xs|e]; simpl; [|reflexivity].
    destruct (mapR f b); reflexivity.
Qed.

Lemma sum_app : forall a b : list Z, sum (a ++ b) = sum a + sum b.
Proof.
  induction a as [|x a IH]; intro b.
  - unfold sum at 2. simpl. lia.
  - change ((x :: a) ++ b)%list with (x :: (a ++ b))%list.
    rewrite !sum_cons, IH. lia.
Qed.

(** The length of one element of a list of messages. *)
Lemma messages_length_list :
  forall ms : list value,
    BaseModel.messages_length (VList ms)
    = let? lens :=
        mapR (fun m =>
                let? c := (if hasattr_content m then getattr_content m
                           else getitem m "content") in
                len c) ms in
      Ok (sum lens).
Proof. reflexivity. Qed.

(** The length of a concatenation of two message lists is the sum of their
    lengths, whenever both have one. *)
Theorem messages_length_app :
  forall (a b : list value) (na nb : Z),
    BaseModel.messages_length (VList a) = Ok na ->
    BaseModel.messages_length (VList b) = Ok nb ->
    BaseModel.messages_length (VList (a ++ b)) = Ok (na + nb).
Proof.
  intros a b na nb. rewrite !messages_length_list, mapR_app.
  match goal with |- context [mapR ?f a] =>
    destruct (mapR f a) as [xs|e]; simpl; [|discriminate];
    destruct (mapR f b) as [ys|e]; simpl; [|discriminate]
  end.
  intros Ha Hb. inversion Ha; inversion Hb; subst.
  rewrite sum_app. reflexivity.
Qed.

Lemma messages_length_app_witness :
  BaseModel.messages_length
    (VList ([VMsg SystemMessage (VStr "be brief")]
            ++ [dict_role_content "user" (VStr "hello world")]))
  = Ok (8 + 11).
Proof.
  apply messages_length_app; reflexivity.
Defined.

(** Converting the messages does not change their length: a list of message
    objects and the list of their records have the same length or raise the
    same exception, and a prompt string is as long as the one-record list
    predict_multiple makes of it. *)
Theorem messages_length_converted :
  (forall ms rs : list value,
      mapR BaseModel.convert_message ms = Ok rs ->
      Forall (fun m => isinstance_str m = false) ms ->
      BaseModel.messages_length (VList rs)
      = BaseModel.messages_length (VList ms))
  /\ (forall (s : string) (prompt : value),
        single (VStr s) = Ok prompt ->
        BaseModel.messages_length prompt
        = BaseModel.messages_length (VStr s)).
Proof.
  split.
  - intros ms rs Hconv Hobj. rewrite !messages_length_list.
    match goal with |- context [mapR ?f rs] =>
      assert (E : mapR f rs = mapR f ms) end.
    { revert rs Hconv. induction Hobj as [|m ms Hm _ IH]; intros rs Hconv;
        simpl in Hconv.
      - inversion Hconv. reflexivity.
      - destruct (BaseModel.convert_message m) as [r|e] eqn:Er;
          simpl in Hconv; [|discriminate].
        destruct (mapR BaseModel.convert_message ms) as [rs'|e];
          simpl in Hconv; [|discriminate].
        inversion Hconv; subst. simpl. rewrite (IH rs' eq_refl).
        destruct m as [| | |s| | | |c content]; try discriminate Er;
          try discriminate Hm.
        destruct c; try discriminate Er; inversion Er; subst; reflexivity. }
    rewrite E. reflexivity.
  - intros s prompt H. inversion H; subst. unfold BaseModel.messages_length.
    simpl. unfold sum. simpl. reflexivity.
Qed.

Lemma messages_length_converted_witness :
  BaseModel.messages_length
    (VList [dict_role_content "system" (VStr "be brief");
            dict_role_content "assistant" (VList [VStr "a"; VStr "b"])])
  = BaseModel.messages_length
      (VList [VMsg SystemMessage (VStr "be brief");
              VMsg AIMessage (VList [VStr "a"; VStr "b"])])
  /\ BaseModel.messages_length (VList [dict_role_content "user" (VStr "hello")])
     = BaseModel.messages_length (VStr "hello").
Proof.
  split.
  - apply (proj1 messages_length_converted
             [VMsg SystemMessage (VStr "be brief");
              VMsg AIMessage (VList [VStr "a"; VStr "b"])]).
    + reflexivity.
    + repeat constructor.
  - apply (proj2 messages_length_converted "hello"). reflexivity.
Defined.

(** A record without the key content makes messages_length raise KeyError,
    whatever follows it in the list, when the messages before it have text
    contents. *)
Theorem messages_length_missing_content :
  forall (good rest : list value) (texts : list string)
         (d : list (string * value)),
    Forall2 text_content good texts ->
    dict_get d "content" = None ->
    BaseModel.messages_length (VList (good ++ VDict d :: rest))
    = Raise (KeyError "content").
Proof.
  intros good rest texts d Hgood Hd.
  rewrite messages_length_list, mapR_app.
  pose proof (messages_length_texts good texts Hgood) as Hlen.
  rewrite messages_length_list in Hlen.
  match goal with |- context [mapR ?f good] =>
    destruct (mapR f good) as [xs|e]; simpl in *; [|discriminate]
  end.
  rewrite Hd. reflexivity.
Qed.

Lemma messages_length_missing_content_witness :
  BaseModel.messages_length
    (VList ([VMsg HumanMessage (VStr "hello")]
            ++ VDict [("role", VStr "user")] :: [VStr "never read"]))
  = Raise (KeyError "content").
Proof.
  apply (messages_length_missing_content [VMsg HumanMessage (VStr "hello")]
           [VStr "never read"] ["hello"] [("role", VStr "user")]).
  - repeat constructor.
  - reflexivity.
Defined.

(** ** [tools] and the attributes set by the constructor *)

Lemma lists_tools_filter :
  forall ts : list tool,
    lists_tools ts
      (map (fun t => VDict [("type", VStr "function");
                            ("function", tool_spec t)])
           (filter (fun t => truthy (tool_spec t)) ts)).
Proof.
  induction ts as [|t ts IH]; simpl.
  - constructor.
  - destruct (truthy (tool_spec t)) eqn:Ht; simpl.
    + apply lists_kept; assumption.
    + apply lists_skipped; assumption.
Qed.

Lemma lists_tools_functional :
  forall (ts : list tool) (vs ws : list value),
    lists_tools ts vs -> lists_tools ts ws -> vs = ws.
Proof.
  intros ts vs ws H. revert ws.
  induction H as [|t ts vs Ht _ IH|t ts vs Ht _ IH]; intros ws Hw;
    inversion Hw; subst; try congruence.
  - f_equal. apply IH. assumption.
  - apply IH. assumption.
Qed.

(** tools lists exactly the tools whose tool_spec is truthy, each once and
    in the order they were given, as a function entry around its tool_spec;
    it lists nothing when no tools were given, and never more entries than
    there are tools. *)
Theorem tools_listed :
  forall (this : instance) (v : value),
    (In v (tools this) <->
     exists (ts : list tool) (t : tool),
       _tools this = Some ts
       /\ In t ts
       /\ truthy (tool_spec t) = true
       /\ v = VDict [("type", VStr "function"); ("function", tool_spec t)])
    /\ (_tools this = None -> tools this = [])
    /\ (forall ts : list tool,
           _tools this = Some ts ->
           (List.length (tools this) <= List.length ts)%nat)
    /\ (forall (ts : list tool) (vs : list value),
           _tools this = Some ts ->
           (lists_tools ts vs <-> vs = tools this)).
Proof.
  intros this v.
  assert (Hlists : forall (ts : list tool) (vs : list value),
             _tools this = Some ts ->
             (lists_tools ts vs <-> vs = tools this)).
  { intros ts vs Ets. unfold tools. rewrite Ets. split.
    - intro H. eapply lists_tools_functional;
        [exact H|apply lists_tools_filter].
    - intros ->. apply lists_tools_filter. }
  unfold tools in *. split; [|split; [|split; [|exact Hlists]]].
  - destruct (_tools this) as [ts|].
    + rewrite in_map_iff. split.
      * intros (t & Ev & Ht). apply filter_In in Ht. destruct Ht as [Hin Hspec].
        exists ts, t. auto.
      * intros (ts' & t & Ets & Hin & Hspec & Ev). inversion Ets; subst ts'.
        exists t. split; [symmetry; exact Ev|].
        apply filter_In. auto.
    + split; [intros []|]. intros (ts & t & Ets & _). discriminate.
  - intros ->. reflexivity.
  - intros ts ->. rewrite length_map. apply filter_length_le.
Qed.

Lemma tools_listed_witness :
  In (VDict [("type", VStr "function");
             ("function", VDict [("name", VStr "search")])])
     (tools (__init__ VNone
               (Some [{| tool_spec := VNone |};
                      {| tool_spec := VDict [("name", VStr "search")] |}])
               (VStr "auto"))).
Proof.
  apply (proj1 (tools_listed _ _)).
  exists [{| tool_spec := VNone |};
          {| tool_spec := VDict [("name", VStr "search")] |}],
         {| tool_spec := VDict [("name", VStr "search")] |}.
  repeat split; simpl; auto.
Defined.

Section Further.

Context {world : Type} {provider : Provider world}.

(** No sequence of method calls changes what the constructor stored: the
    assistant, the tools and the tool choice stay as given, and so does the
    list that tools returns. *)
Theorem configuration_kept :
  forall (ops : list op) (s : state world),
    _heymans (self (run ops s)) = _heymans (self s)
    /\ _tools (self (run ops s)) = _tools (self s)
    /\ _tool_choice (self (run ops s)) = _tool_choice (self s)
    /\ tools (self (run ops s)) = tools (self s).
Proof.
  intros ops s.
  assert (H : _heymans (self (run ops s)) = _heymans (self s)
              /\ _tools (self (run ops s)) = _tools (self s)
              /\ _tool_choice (self (run ops s)) = _tool_choice (self s)).
  { induction ops as [|o ops IH] using rev_ind.
    - repeat split.
    - rewrite run_snoc.
      destruct (step_self o (run ops s)) as [E|(msg_len & reply & _ & E)];
        rewrite E; [exact IH|]. exact IH. }
  destruct H as (Hh & Ht & Hc). repeat split; try assumption.
  unfold tools. rewrite Ht. reflexivity.
Qed.

(** ** [predict]: failures and the size of the estimate *)

(** predict sends the messages to the provider exactly once, also when it
    raises; and when it raises, for whatever reason and with either value of
    track_tokens, the attributes of the instance, the counters among them,
    are left as they were. *)
Theorem predict_failure_frame :
  forall (messages : value) (track_tokens : bool) (s : state world),
    env (snd (predict messages track_tokens s))
    = snd (invoke messages (env s))
    /\ (forall (e : exn) (s' : state world),
           predict messages track_tokens s = (Raise e, s') ->
           self s' = self s).
Proof.
  intros messages track_tokens s. rewrite predict_cases.
  destruct (invoke messages (env s)) as [[response|e0] w]; simpl.
  - destruct (BaseModel.get_response response) as [reply|e1]; simpl.
    + destruct (BaseModel.messages_length messages) as [msg_len|e2]; simpl.
      * split; [reflexivity|]. intros e s' H. discriminate H.
      * split; [reflexivity|]. intros e s' H. inversion H. reflexivity.
    + split; [reflexivity|]. intros e s' H. inversion H. reflexivity.
  - split; [reflexivity|]. intros e s' H. inversion H. reflexivity.
Qed.

(** What a tracked prediction adds to the counters is the floor of a quarter
    of the characters: the prompt tokens p satisfy 4p <= msg_len < 4p + 4,
    the completion tokens likewise for the reply, so that the total is at
    most one token below a quarter of all characters; fewer than four
    characters are not counted at all. *)
Theorem predict_estimate_bounds :
  forall (s : state world) (messages response reply : value) (w : world)
         (msg_len : Z),
    invoke messages (env s) = (Ok response, w) ->
    BaseModel.get_response response = Ok reply ->
    BaseModel.messages_length messages = Ok msg_len ->
    let s' := snd (predict messages true s) in
    let p := prompt_tokens_consumed (self s')
             - prompt_tokens_consumed (self s) in
    let c := completion_tokens_consumed (self s')
             - completion_tokens_consumed (self s) in
    let t := total_tokens_consumed (self s')
             - total_tokens_consumed (self s) in
    4 * p <= msg_len < 4 * p + 4
    /\ 4 * c <= reply_length reply < 4 * c + 4
    /\ (msg_len + reply_length reply) / 4 - 1 <= t
       <= (msg_len + reply_length reply) / 4
    /\ (msg_len < 4 -> p = 0)
    /\ (reply_length reply < 4 -> c = 0).
Proof.
  intros s messages response reply w msg_len Hinvoke Hreply Hlen.
  cbv zeta. rewrite predict_cases, Hinvoke, Hreply, Hlen.
  cbn [snd self account add_total add_prompt add_completion
       prompt_tokens_consumed completion_tokens_consumed
       total_tokens_consumed].
  unfold BaseModel.characters_per_token.
  pose proof (messages_length_nonneg _ _ Hlen) as Hm.
  pose proof (reply_length_nonneg reply) as Hr.
  pose proof (Z.div_mod msg_len 4 ltac:(lia)) as Dm.
  pose proof (Z.mod_pos_bound msg_len 4 ltac:(lia)) as Bm.
  pose proof (Z.div_mod (reply_length reply) 4 ltac:(lia)) as Dr.
  pose proof (Z.mod_pos_bound (reply_length reply) 4 ltac:(lia)) as Br.
  pose proof (Z.div_mod (msg_len + reply_length reply) 4 ltac:(lia)) as Dt.
  pose proof (Z.mod_pos_bound (msg_len + reply_length reply) 4 ltac:(lia)) as Bt.
  repeat split; try lia.
Qed.

End Further.

Lemma predict_failure_frame_witness :
  self (snd (predict (provider := echo_provider) (VList [VStr "hello"]) true
               {| self := fresh; env := 0%nat |}))
  = fresh
  /\ env (snd (predict (provider := echo_provider) (VList [VStr "hello"]) true
                 {| self := fresh; env := 0%nat |}))
     = 1%nat.
Proof.
  split.
  - apply (proj2 (predict_failure_frame (provider := echo_provider)
                    (VList [VStr "hello"]) true
                    {| self := fresh; env := 0%nat |})
             TypeError).
    reflexivity.
  - apply (proj1 (predict_failure_frame (provider := echo_provider)
                    (VList [VStr "hello"]) true
                    {| self := fresh; env := 0%nat |})).
Defined.

Lemma predict_estimate_bounds_witness :
  let s := {| self := fresh; env := 0%nat |} in
  let s' := snd (predict (provider := echo_provider) (VStr "hello world") true s) in
  4 * (prompt_tokens_consumed (self s') - 0) <= 11
  /\ 11 < 4 * (prompt_tokens_consumed (self s') - 0) + 4.
Proof.
  intros s s'.
  destruct (predict_estimate_bounds (provider := echo_provider) s
              (VStr "hello world") (VMsg AIMessage (VStr "hello world"))
              (VStr "hello world") 1%nat 11 eq_refl eq_refl eq_refl)
    as ([Hlow Hhigh] & _).
  exact (conj Hlow Hhigh).
Defined.

(** ** [predict_multiple]: counters, failures, and [predict] *)

Section FurtherMultiple.

Context {world : Type} {provider : Provider world}.

Lemma mapM_cons :
  forall {A B : Type} (f : A -> M world B) (x : A) (t : list A)
         (s : state world),
    mapM f (x :: t) s
    = match f x s with
      | (Ok y, s1) =>
          match mapM f t s1 with
          | (Ok ys, s2) => (Ok (y :: ys), s2)
          | (Raise e, s2) => (Raise e, s2)
          end
      | (Raise e, s1) => (Raise e, s1)
      end.
Proof.
  intros A B f x t s. simpl. unfold bind, ret.
  destruct (f x s) as [[y|e] s1]; [|reflexivity].
  destruct (mapM f t s1) as [[ys|e] s2]; reflexivity.
Qed.

(** predict_multiple does not account any tokens: in both branches, whether
    it returns or raises, the three counters are what they were before the
    call, although the provider has been sent the prompts. *)
Theorem predict_multiple_untracked :
  forall (loop : event_loop) (prompts : list value) (s : state world),
    total_tokens_consumed (self (snd (predict_multiple loop prompts s)))
    = total_tokens_consumed (self s)
    /\ prompt_tokens_consumed (self (snd (predict_multiple loop prompts s)))
       = prompt_tokens_consumed (self s)
    /\ completion_tokens_consumed
         (self (snd (predict_multiple loop prompts s)))
       = completion_tokens_consumed (self s).
Proof.
  intros loop prompts s.
  rewrite (keeps_self_predict_multiple loop prompts s).
  repeat split.
Qed.

(** All prompts are converted before any is sent: when a prompt cannot be
    converted, predict_multiple raises the exception of the first such
    prompt and the provider has not been called, in either branch. *)
Theorem predict_multiple_rejects_before_sending :
  forall (loop : event_loop) (good rest gs : list value) (bad : value)
         (e : exn) (s : state world),
    mapR single good = Ok gs ->
    BaseModel.convert_message bad = Raise e ->
    predict_multiple loop (good ++ bad :: rest) s = (Raise e, s).
Proof.
  intros loop good rest gs bad e s Hgood Hbad.
  rewrite predict_multiple_cases, mapR_app, Hgood. simpl.
  unfold single at 1. rewrite Hbad. reflexivity.
Qed.

Lemma loop_stops :
  forall (f : value -> world -> result value * world) (w w1 w2 : world)
         (gs xs : list value) (b : value) (e : exn),
    served f w gs xs w1 ->
    (f b w1 = (Raise e, w2)
     \/ exists r, f b w1 = (Ok r, w2) /\ BaseModel.get_response r = Raise e) ->
    forall (rs : list value) (a : instance),
      mapM (fun prompt =>
              bind (call f prompt) (fun r => lift (BaseModel.get_response r)))
           (gs ++ b :: rs) {| self := a; env := w |}
      = (Raise e, {| self := a; env := w2 |}).
Proof.
  intros f w w1 w2 gs xs b e H.
  induction H as [w|w w0 w1 p r x ps xs Hf Hr _ IH]; intros Hbad rs a.
  - change ([] ++ b :: rs)%list with (b :: rs). rewrite mapM_cons.
    unfold bind, call, lift. simpl.
    destruct Hbad as [Hb|(r & Hb & Hr)]; rewrite Hb; [reflexivity|].
    rewrite Hr. reflexivity.
  - change ((p :: ps) ++ b :: rs)%list with (p :: (ps ++ b :: rs))%list.
    rewrite mapM_cons. unfold bind at 1, call at 1, lift at 1. simpl.
    rewrite Hf, Hr, (IH Hbad). reflexivity.
Qed.

(** The synchronous branch stops at the first failure: when a send raises,
    or a response has no content, predict_multiple raises that exception and
    the prompts after it are never sent; the provider is left in the state
    after the failed send. *)
Theorem predict_multiple_sync_stops :
  forall (prompts gs rs xs : list value) (b : value) (s : state world)
         (w1 w2 : world) (e : exn),
    mapR single prompts = Ok (gs ++ b :: rs)%list ->
    served invoke (env s) gs xs w1 ->
    (invoke b w1 = (Raise e, w2)
     \/ exists r,
         invoke b w1 = (Ok r, w2) /\ BaseModel.get_response r = Raise e) ->
    predict_multiple (Loop true) prompts s
    = (Raise e, {| self := self s; env := w2 |}).
Proof.
  intros prompts gs rs xs b s w1 w2 e Hps Hserved Hbad.
  rewrite predict_multiple_cases, Hps. simpl.
  destruct s as [a w]. simpl in *.
  eapply loop_stops; eassumption.
Qed.

Lemma predicts_served :
  forall (prompts : list value) (s : state world) (xs : list value)
         (s' : state world),
    mapM (fun prompt => bind (lift (single prompt)) (fun m => predict m false))
         prompts s = (Ok xs, s') ->
    exists ps : list value,
      mapR single prompts = Ok ps
      /\ served invoke (env s) ps xs (env s')
      /\ self s' = self s.
Proof.
  induction prompts as [|p prompts IH]; intros s xs s' H.
  - inversion H; subst. exists []. repeat split. constructor.
  - rewrite mapM_cons in H. unfold bind at 1, lift at 1 in H.
    destruct (single p) as [m|e] eqn:Em; [|discriminate].
    rewrite predict_cases in H.
    destruct (invoke m (env s)) as [[r|e] w1] eqn:Ef; [|discriminate].
    destruct (BaseModel.get_response r) as [x|e] eqn:Er; [|discriminate].
    destruct (BaseModel.messages_length m) as [n|e]; [|discriminate].
    match type of H with
    | match mapM ?f prompts ?s1 with _ => _ end = _ =>
        destruct (mapM f prompts s1) as [[ys|e] s2] eqn:Et; [|discriminate]
    end.
    inversion H; subst.
    destruct (IH _ _ _ Et) as (ps & Hps & Hserved & Eself).
    exists (m :: ps). simpl in Hserved, Eself. split; [|split].
    + simpl. rewrite Em. simpl. rewrite Hps. reflexivity.
    + econstructor; eassumption.
    + exact Eself.
Qed.

(** When converting each prompt and calling predict on it with
    track_tokens=False, one prompt after the other, returns replies, then
    predict_multiple in a running event loop returns the same replies and
    leaves the same state. *)
Theorem predict_multiple_as_predicts :
  forall (prompts : list value) (s : state world) (xs : list value)
         (s' : state world),
    mapM (fun prompt => bind (lift (single prompt)) (fun m => predict m false))
         prompts s = (Ok xs, s') ->
    predict_multiple (Loop true) prompts s = (Ok xs, s').
Proof.
  intros prompts s xs s' H.
  destruct (predicts_served _ _ _ _ H) as (ps & Hps & Hserved & Eself).
  pose proof (predict_multiple_complete (Loop true) prompts ps xs
                (env s) (env s') (self s) Hps Hserved) as Hret.
  destruct s as [a w], s' as [a' w']. simpl in *. subst a'. exact Hret.
Qed.

End FurtherMultiple.

(** The base class is abstract: on an instance of BaseModel itself predict
    raises NotImplementedError for all messages, and so does predict_multiple
    in both branches for every non-empty list of prompts that convert; the
    instance is left as it was. *)
Theorem abstract_model_raises :
  forall (world : Type) (s : state world),
    (forall (messages : value) (track_tokens : bool),
        predict (provider := base_provider world) messages track_tokens s
        = (Raise NotImplementedError, s))
    /\ (forall (loop : event_loop) (prompts ps : list value),
          mapR single prompts = Ok ps ->
          ps <> [] ->
          predict_multiple (provider := base_provider world) loop prompts s
          = (Raise NotImplementedError, s)).
Proof.
  intros world s. split.
  - intros messages track_tokens. rewrite predict_cases. simpl.
    destruct s; reflexivity.
  - intros loop prompts ps Hps Hne. rewrite predict_multiple_cases, Hps.
    destruct ps as [|p ps]; [contradiction|].
    destruct (use_async loop); cbn [negb].
    + unfold wrap_gather. rewrite gather_cases, mapM_cons. unfold call.
      simpl. destruct s; reflexivity.
    + rewrite mapM_cons. unfold bind, call. simpl. destruct s; reflexivity.
Qed.

Lemma abstract_model_raises_witness :
  predict_multiple (provider := base_provider unit) NoLoop
    [VStr "one"; VStr "two"] {| self := fresh; env := tt |}
  = (Raise NotImplementedError, {| self := fresh; env := tt |}).
Proof.
  apply (proj2 (abstract_model_raises unit {| self := fresh; env := tt |})
           NoLoop [VStr "one"; VStr "two"]
           [VList [dict_role_content "user" (VStr "one")];
            VList [dict_role_content "user" (VStr "two")]]).
  - reflexivity.
  - discriminate.
Defined.

Lemma predict_multiple_rejects_before_sending_witness :
  predict_multiple (provider := echo_provider) (Loop true)
    ([VStr "one"] ++ VInt 2 :: [VStr "three"])
    {| self := fresh; env := 0%nat |}
  = (Raise (ValueError (VInt 2)), {| self := fresh; env := 0%nat |}).
Proof.
  apply (predict_multiple_rejects_before_sending (provider := echo_provider)
           (Loop true) [VStr "one"] [VStr "three"]
           [VList [dict_role_content "user" (VStr "one")]]);
    reflexivity.
Defined.

Lemma predict_multiple_sync_stops_witness :
  predict_multiple (provider := quota_provider) (Loop true)
    [VStr "one"; VStr "two"; VStr "three"]
    {| self := fresh; env := 1%nat |}
  = (Raise (ProviderError "quota exceeded"),
     {| self := fresh; env := 0%nat |}).
Proof.
  apply (predict_multiple_sync_stops (provider := quota_provider)
           [VStr "one"; VStr "two"; VStr "three"]
           [VList [dict_role_content "user" (VStr "one")]]
           [VList [dict_role_content "user" (VStr "three")]]
           [VStr "one"]
           (VList [dict_role_content "user" (VStr "two")])
           {| self := fresh; env := 1%nat |} 0%nat 0%nat).
  - reflexivity.
  - eapply served_cons; [reflexivity|reflexivity|apply served_nil].
  - left. reflexivity.
Defined.

Lemma predict_multiple_as_predicts_witness :
  predict_multiple (provider := echo_provider) (Loop true)
    [VStr "one"; VMsg HumanMessage (VStr "two")]
    {| self := fresh; env := 0%nat |}
  = (Ok [VStr "one"; VStr "two"], {| self := fresh; env := 2%nat |}).
Proof.
  apply (predict_multiple_as_predicts (provider := echo_provider)).
  reflexivity.
Defined.

(** ** Which calls change the instance *)

Section Tracking.

Context {world : Type} {provider : Provider world}.

(** Only predict with track_tokens=True writes to the instance: a sequence
    of calls without such a call, however long and whatever its calls return
    or raise, leaves every attribute of the instance as it was. *)
Theorem untracked_calls_keep_instance :
  forall (ops : list op) (s : state world),
    forallb (fun o => negb (tracks_tokens o)) ops = true ->
    self (run ops s) = self s.
Proof.
  intros ops. induction ops as [|o ops IH] using rev_ind; intros s H.
  - reflexivity.
  - rewrite run_snoc. rewrite forallb_app in H.
    apply andb_true_iff in H. destruct H as [Hops Ho].
    simpl in Ho. rewrite andb_true_r in Ho. rewrite <- (IH s Hops).
    destruct o as [| | |m|m| | |m track|loop prompts]; simpl;
      try reflexivity.
    + apply keeps_self_call.
    + apply keeps_self_call.
    + simpl in Ho. destruct track; [discriminate|].
      rewrite predict_cases.
      destruct (invoke m (env (run ops s))) as [[response|e] w];
        [|reflexivity].
      destruct (BaseModel.get_response response); [|reflexivity].
      destruct (BaseModel.messages_length m); reflexivity.
    + apply keeps_self_predict_multiple.
Qed.

End Tracking.

Lemma untracked_calls_keep_instance_witness :
  self (run (provider := quota_provider)
          [OpPredict (VStr "hello world") false;
           OpPredictMultiple NoLoop [VStr "one"; VStr "two"];
           OpInvoke (VStr "again");
           OpPredict (VStr "too late") false]
          {| self := fresh; env := 3%nat |})
  = fresh.
Proof.
  apply (untracked_calls_keep_instance (provider := quota_provider)).
  reflexivity.
Defined.

(** ** The model on concrete inputs *)

Example messages_length_empty_dict :
  BaseModel.messages_length (VDict []) = Ok 0.
Proof. reflexivity. Qed.

Example messages_length_list_of_strings :
  BaseModel.messages_length (VList [VStr "hello"]) = Raise TypeError.
Proof. reflexivity. Qed.

Example messages_length_record_without_content :
  BaseModel.messages_length (VList [VDict [("role", VStr "user")]])
  = Raise (KeyError "content").
Proof. reflexivity. Qed.

Example messages_length_content_parts :
  BaseModel.messages_length
    (VList [VMsg HumanMessage (VList [VStr "one part"; VStr "another"])])
  = Ok 2.
Proof. reflexivity. Qed.

Example predict_on_base_class :
  predict (provider := base_provider unit) (VStr "hello") true
    {| self := fresh; env := tt |}
  = (Raise NotImplementedError, {| self := fresh; env := tt |}).
Proof. reflexivity. Qed.

Example predict_multiple_unknown_prompt :
  predict_multiple (provider := echo_provider) NoLoop
    [VStr "one"; VInt 2; VStr "three"] {| self := fresh; env := 0%nat |}
  = (Raise (ValueError (VInt 2)), {| self := fresh; env := 0%nat |}).
Proof. reflexivity. Qed.

Example tools_skips_empty_specs :
  tools (__init__ VNone
           (Some [{| tool_spec := VDict [("name", VStr "search")] |};
                  {| tool_spec := VNone |}])
           (VStr "auto"))
  = [VDict [("type", VStr "function");
            ("function", VDict [("name", VStr "search")])]].
Proof. reflexivity. Qed.
